(** * Offline persistence, synchronisation and analysis flows of RETINA

    Shallow embedding of the client-side detection components
    ([src/src/components/cnn-detection-interface.tsx] and the
    [DetectionFlow] component of [src/unnamed/part_000]) together with the
    offline-storage layer they call ([@/lib/offline-storage]).  *)

From Stdlib Require Import ZArith QArith Lia.
From stdpp Require Import base gmap strings list.

(* ------------------------------------------------------------------ *)
(** ** Entities *)

Module Entities.

Inductive DiseaseType := glaucoma | retinopathy | cataract.

(** The stored detection record built in [startAnalysis]:
    [{ id, imageId, result, timestamp, synced, diseaseType, confidence }].
    The prediction payload is kept opaque as the predicted class name. *)
Record DetectionResult := mkDetectionResult {
  dr_id : string;
  dr_imageId : string;
  dr_result : string;
  dr_timestamp : string;
  dr_synced : bool;
  dr_diseaseType : DiseaseType;
  dr_confidence : nat
}.

Definition with_synced (b : bool) (r : DetectionResult) : DetectionResult :=
  {| dr_id := dr_id r; dr_imageId := dr_imageId r; dr_result := dr_result r;
     dr_timestamp := dr_timestamp r; dr_synced := b;
     dr_diseaseType := dr_diseaseType r; dr_confidence := dr_confidence r |}.

End Entities.

(* ------------------------------------------------------------------ *)
(** ** LocalStore *)

Module LocalStore.

(** Modelled from the spec: the keyed store of [@/lib/offline-storage]
    (not part of the sources).  [put] is an atomic per-key write that
    fails with [QuotaExceeded] when the medium rejects the write, leaving
    the previous value (or absence) in place; [getById] returns the entry
    or not-found; [delete] is a per-key removal that never fails. *)

Inductive put_result := PutOk | QuotaExceeded.

Section Store.
Context {V : Type}.
(** Size of a serialized record, in the medium's units. *)
Variable size : V -> nat.
(** Total capacity of the medium. *)
Variable budget : nat.

Definition usage (s : gmap string V) : nat :=
  map_fold (fun _ v acc => size v + acc) 0 s.

Definition put (s : gmap string V) (k : string) (v : V)
    : put_result * gmap string V :=
  if decide (usage (delete k s) + size v <= budget)
  then (PutOk, <[k := v]> s)
  else (QuotaExceeded, s).

Definition getById (s : gmap string V) (k : string) : option V := s !! k.

Definition store_delete (s : gmap string V) (k : string)
    : unit * gmap string V :=
  (tt, delete k s).
End Store.

End LocalStore.

(* ------------------------------------------------------------------ *)
(** ** OfflineStorageService facade *)

Module Facade.
Import Entities LocalStore.

(** Size of a detection record as stored. *)
Definition record_size (r : DetectionResult) : nat :=
  1 + String.length (dr_id r) + String.length (dr_imageId r)
    + String.length (dr_result r) + String.length (dr_timestamp r).

(** Modelled from the spec: [saveDetectionResult] of [@/lib/offline-storage]
    (not part of the sources) persists the entity it is given through
    LocalStore's [put], under its [id]. *)
Definition saveDetectionResult (budget : nat) (db : gmap string DetectionResult)
    (r : DetectionResult) : put_result * gmap string DetectionResult :=
  put record_size budget db (dr_id r) r.

Definition getUnsyncedDetectionResults (db : gmap string DetectionResult)
    : list DetectionResult :=
  filter (fun r => dr_synced r = false) (map snd (map_to_list db)).

End Facade.

(* ------------------------------------------------------------------ *)
(** ** CNNDetectionInterface.startAnalysis: the record it saves *)

Module CNNDetection.
Import Entities LocalStore.

(** The object literal passed to [saveDetectionResult] (lines 165-173):
    [id: `detection_${Date.now()}_${rnd}`], [imageId: `image_${Date.now()}`],
    [synced: isOnline]. *)
Definition detection_id (now rnd : string) : string :=
  ("detection_" ++ now ++ "_" ++ rnd)%string.

Definition detection_record (isOnline : bool) (now rnd : string)
    (diseaseType : DiseaseType) (cls : string) (confidence : nat)
    (timestamp : string) : DetectionResult :=
  {| dr_id := detection_id now rnd;
     dr_imageId := ("image_" ++ now)%string;
     dr_result := cls;
     dr_timestamp := timestamp;
     dr_synced := isOnline;
     dr_diseaseType := diseaseType;
     dr_confidence := confidence |}.

(** The save at the end of a successful [startAnalysis]. *)
Definition startAnalysis_save (budget : nat) (db : gmap string DetectionResult)
    (isOnline : bool) (now rnd : string) (diseaseType : DiseaseType)
    (cls : string) (confidence : nat) (timestamp : string)
    : put_result * gmap string DetectionResult :=
  Facade.saveDetectionResult budget db
    (detection_record isOnline now rnd diseaseType cls confidence timestamp).

End CNNDetection.

(* ------------------------------------------------------------------ *)
(** ** Life of the stored detections: saves, sync outcomes, deletions *)

Module Sync.
Import Entities LocalStore.

(** The component's [isOnline] state, the [startAnalysis] call in flight
    if any, and the store.  A call is started by the Analyze button's
    [onClick] of the current render; the async function reads [isOnline]
    from that render's closure when it builds the record after
    [await model.predict], so the call carries the value [isOnline] had
    at the click. *)
Record session := mkSession {
  isOnline : bool;
  analysis : option bool;
  db : gmap string DetectionResult
}.

Inductive event :=
  (** [handleOnline] / [handleOffline]: [setIsOnline(true | false)] *)
  | EvOnline
  | EvOffline
  (** Analyze clicked ([disabled={isAnalyzing || ...}]) *)
  | EvAnalyze
  (** [await model.predict] rejects: [catch], then [finally] *)
  | EvPredictFail
  (** [await model.predict] resolves and the record is saved *)
  | EvSave (now rnd : string) (diseaseType : DiseaseType)
           (cls : string) (confidence : nat) (timestamp : string)
  (** SyncCoordinator: the remote acknowledged the push of [id] *)
  | EvAck (id : string)
  (** SyncCoordinator: the push of [id] timed out or failed transiently *)
  | EvFail (id : string)
  (** retention / cleanup collaborator deletes [id] *)
  | EvDelete (id : string).

(** Modelled from the spec: on acknowledgment SyncCoordinator sets
    [synced=true] for that id; on timeout or transient failure nothing is
    written (the item remains [synced=false]). *)
Definition on_ack (db : gmap string DetectionResult) (id : string)
    : gmap string DetectionResult :=
  alter (with_synced true) id db.

Definition on_fail (db : gmap string DetectionResult) (id : string)
    : gmap string DetectionResult :=
  db.

Definition set_online (b : bool) (s : session) : session :=
  {| isOnline := b; analysis := analysis s; db := db s |}.

Definition set_analysis (a : option bool) (s : session) : session :=
  {| isOnline := isOnline s; analysis := a; db := db s |}.

Definition set_db (d : gmap string DetectionResult) (s : session) : session :=
  {| isOnline := isOnline s; analysis := analysis s; db := d |}.

Section Steps.
Variable budget : nat.

(** Ids are generated fresh by the writer ([Date.now()] plus a random
    suffix), so a save never targets an existing key. *)
Inductive step : session -> event -> session -> Prop :=
| step_online s : step s EvOnline (set_online true s)
| step_offline s : step s EvOffline (set_online false s)
| step_analyze s :
    analysis s = None -> step s EvAnalyze (set_analysis (Some (isOnline s)) s)
| step_predict_fail s c :
    analysis s = Some c -> step s EvPredictFail (set_analysis None s)
| step_save s c now rnd dt cls conf ts :
    analysis s = Some c ->
    db s !! CNNDetection.detection_id now rnd = None ->
    step s (EvSave now rnd dt cls conf ts)
      {| isOnline := isOnline s; analysis := None;
         db := snd (CNNDetection.startAnalysis_save budget (db s) c now rnd dt cls conf ts) |}
| step_ack s id : step s (EvAck id) (set_db (on_ack (db s) id) s)
| step_fail s id : step s (EvFail id) (set_db (on_fail (db s) id) s)
| step_delete s id : step s (EvDelete id) (set_db (snd (store_delete (db s) id)) s).

End Steps.

End Sync.

(* ------------------------------------------------------------------ *)
(** ** Retry backoff of a failing push *)

Module Backoff.

(** Modelled from the spec: the SyncCoordinator retry schedule of
    [@/lib/offline-storage] (not part of the sources): "exponential backoff
    (e.g., base 1s, cap 60s) plus random jitter", "non-decreasing up to its
    configured cap".  Attempt [n] (from 0) waits [base * 2^n] plus the
    jitter drawn for it, bounded by the cap; the jitter of attempt [n] is
    drawn in [[0, base * 2^n)]. *)
Definition backoff_delay (base cap n jitter : nat) : nat :=
  Nat.min cap (base * 2 ^ n + jitter).

Fixpoint jitters_in_range (base n : nat) (jitters : list nat) : Prop :=
  match jitters with
  | [] => True
  | j :: js => j < base * 2 ^ n /\ jitters_in_range base (S n) js
  end.

(** Delays of successive attempts [n, n+1, ...] for the drawn jitters. *)
Fixpoint retry_delays (base cap n : nat) (jitters : list nat) : list nat :=
  match jitters with
  | [] => []
  | j :: js => backoff_delay base cap n j :: retry_delays base cap (S n) js
  end.

Fixpoint non_decreasing (l : list nat) : Prop :=
  match l with
  | x :: ((y :: _) as tl) => x <= y /\ non_decreasing tl
  | _ => True
  end.

End Backoff.

(* ------------------------------------------------------------------ *)
(** ** SyncCoordinator trigger handling *)

Module Coordinator.

(** Modelled from the spec: the [Idle -> Syncing -> Idle] machine of the
    SyncCoordinator of [@/lib/offline-storage] (not part of the sources).
    A trigger while a pass is [Syncing] is answered "already running" and
    changes nothing; passes are numbered. *)
Inductive phase := Idle | Syncing.

Record coordinator := mkCoordinator {
  in_flight : list nat;
  next_pass : nat
}.

Inductive reply := Started (pass : nat) | AlreadyRunning.

Definition init : coordinator := {| in_flight := []; next_pass := 0 |}.

Definition phase_of (c : coordinator) : phase :=
  match in_flight c with [] => Idle | _ => Syncing end.

(** [forceSync()] or an Online transition. *)
Definition request_sync (c : coordinator) : reply * coordinator :=
  match in_flight c with
  | [] => (Started (next_pass c),
           {| in_flight := [next_pass c]; next_pass := S (next_pass c) |})
  | _ :: _ => (AlreadyRunning, c)
  end.

(** The running pass reaches [Idle]. *)
Definition finish_pass (c : coordinator) : coordinator :=
  {| in_flight := []; next_pass := next_pass c |}.

Inductive cevent := CRequest | CFinish.

Definition cstep (c : coordinator) (e : cevent) : coordinator :=
  match e with
  | CRequest => snd (request_sync c)
  | CFinish => finish_pass c
  end.

Definition run (c : coordinator) (es : list cevent) : coordinator :=
  fold_left cstep es c.

(** Replies to [k] triggers issued back to back. *)
Fixpoint requests (k : nat) (c : coordinator) : list reply * coordinator :=
  match k with
  | 0 => ([], c)
  | S k' =>
      let '(r, c1) := request_sync c in
      let '(rs, c2) := requests k' c1 in
      (r :: rs, c2)
  end.

Definition is_started (r : reply) : bool :=
  match r with Started _ => true | AlreadyRunning => false end.

End Coordinator.

(* ------------------------------------------------------------------ *)
(** ** Connectivity state of CNNDetectionInterface *)

Module Connectivity.

Inductive platform_event := EvOnline | EvOffline.

(** [handleOnline = () => setIsOnline(true)],
    [handleOffline = () => setIsOnline(false)]. *)
Definition handle (isOnline : bool) (e : platform_event) : bool :=
  match e with EvOnline => true | EvOffline => false end.

(** [isOnline] at time [t]: [useState(true)], then on mount
    [checkOnlineStatus] sets it to [navigator.onLine], then every
    window event received (timestamped, in order) up to [t] is handled. *)
Definition isOnline_at (navigatorOnLine : bool)
    (evs : list (nat * platform_event)) (t : nat) : bool :=
  fold_left (fun st '(ts, e) => if ts <=? t then handle st e else st)
    evs navigatorOnLine.

End Connectivity.

(* ------------------------------------------------------------------ *)
(** ** DetectionFlow ([src/unnamed/part_000]) *)

Module DetectionFlow.

Inductive DetectionStep := instructions | capture | analyzing | results.

Inductive Verdict := positive | negative | inconclusive.

Record DetectionResult := mkResult {
  result : Verdict;
  confidence : nat;
  details : string;
  recommendations : list string
}.

(** Component state; [intervalActive] is whether the [progressInterval]
    of the running [analyzeImage] is still scheduled. *)
Record flow := mkFlow {
  currentStep : DetectionStep;
  capturedImage : option string;
  isAnalyzing : bool;
  analysisProgress : nat;
  detectionResult : option DetectionResult;
  error : option string;
  isUsingCamera : bool;
  intervalActive : bool
}.

Definition init : flow :=
  {| currentStep := instructions; capturedImage := None; isAnalyzing := false;
     analysisProgress := 0; detectionResult := None; error := None;
     isUsingCamera := false; intervalActive := false |}.

(** How the [fetch('/api/analyze', ...)] round trip ends: the promise
    rejects, the response is not [ok], or it is [ok] and [response.json()]
    yields a result ([Some]) or rejects ([None]). *)
Inductive fetch_outcome :=
  | FetchRejects
  | FetchNotOk
  | FetchOk (json : option DetectionResult).

Definition analysis_failed_msg : string := "Analysis failed. Please try again.".

(** Synchronous prefix of [analyzeImage], up to [await fetch]. *)
Definition analyzeImage_start (s : flow) : flow :=
  {| currentStep := currentStep s; capturedImage := capturedImage s;
     isAnalyzing := true; analysisProgress := 0;
     detectionResult := detectionResult s; error := None;
     isUsingCamera := isUsingCamera s; intervalActive := true |}.

(** One firing of [progressInterval]:
    [prev >= 90 ? (clearInterval, 90) : prev + 10]. *)
Definition tick (s : flow) : flow :=
  if intervalActive s then
    if 90 <=? analysisProgress s then
      {| currentStep := currentStep s; capturedImage := capturedImage s;
         isAnalyzing := isAnalyzing s; analysisProgress := 90;
         detectionResult := detectionResult s; error := error s;
         isUsingCamera := isUsingCamera s; intervalActive := false |}
    else
      {| currentStep := currentStep s; capturedImage := capturedImage s;
         isAnalyzing := isAnalyzing s; analysisProgress := analysisProgress s + 10;
         detectionResult := detectionResult s; error := error s;
         isUsingCamera := isUsingCamera s; intervalActive := true |}
  else s.

(** Continuation of [analyzeImage] after the request settles: the [try]
    body or the [catch], then [finally] ([setIsAnalyzing(false)],
    [clearInterval]). *)
Definition analyzeImage_finish (s : flow) (o : fetch_outcome) : flow :=
  match o with
  | FetchOk (Some r) =>
      {| currentStep := results; capturedImage := capturedImage s;
         isAnalyzing := false; analysisProgress := 100;
         detectionResult := Some r; error := error s;
         isUsingCamera := isUsingCamera s; intervalActive := false |}
  | _ =>
      {| currentStep := capture; capturedImage := capturedImage s;
         isAnalyzing := false; analysisProgress := analysisProgress s;
         detectionResult := detectionResult s; error := Some analysis_failed_msg;
         isUsingCamera := isUsingCamera s; intervalActive := false |}
  end.

(** [reader.onload] of [handleFileUpload] and [captureImage]: store the
    image, go to ['analyzing'], call [analyzeImage]. *)
Definition begin_analysis (s : flow) (img : string) (camera_off : bool) : flow :=
  analyzeImage_start
    {| currentStep := analyzing; capturedImage := Some img;
       isAnalyzing := isAnalyzing s; analysisProgress := analysisProgress s;
       detectionResult := detectionResult s; error := error s;
       isUsingCamera := if camera_off then false else isUsingCamera s;
       intervalActive := intervalActive s |}.

Definition resetDetection (s : flow) : flow :=
  {| currentStep := instructions; capturedImage := None;
     isAnalyzing := isAnalyzing s; analysisProgress := 0;
     detectionResult := None; error := None;
     isUsingCamera := isUsingCamera s; intervalActive := intervalActive s |}.

Definition set_step (st : DetectionStep) (s : flow) : flow :=
  {| currentStep := st; capturedImage := capturedImage s;
     isAnalyzing := isAnalyzing s; analysisProgress := analysisProgress s;
     detectionResult := detectionResult s; error := error s;
     isUsingCamera := isUsingCamera s; intervalActive := intervalActive s |}.

(** [startCamera]: the stream is granted, or access is denied. *)
Definition startCamera (granted : bool) (s : flow) : flow :=
  if granted then
    {| currentStep := currentStep s; capturedImage := capturedImage s;
       isAnalyzing := isAnalyzing s; analysisProgress := analysisProgress s;
       detectionResult := detectionResult s; error := error s;
       isUsingCamera := true; intervalActive := intervalActive s |}
  else
    {| currentStep := currentStep s; capturedImage := capturedImage s;
       isAnalyzing := isAnalyzing s; analysisProgress := analysisProgress s;
       detectionResult := detectionResult s;
       error := Some "Camera access denied. Please use file upload instead.";
       isUsingCamera := isUsingCamera s; intervalActive := intervalActive s |}.

Definition cancelCamera (s : flow) : flow :=
  {| currentStep := currentStep s; capturedImage := capturedImage s;
     isAnalyzing := isAnalyzing s; analysisProgress := analysisProgress s;
     detectionResult := detectionResult s; error := error s;
     isUsingCamera := false; intervalActive := intervalActive s |}.

(** What can happen next: user actions on the buttons rendered for the
    current step (the hidden file input is opened from the 'instructions'
    and 'capture' steps only), interval firings, and the settling of the
    outstanding request. *)
Inductive action :=
  | AUpload (img : string)
  | ACapture (img : string)
  | AStartCamera (granted : bool)
  | ACancelCamera
  | ABackToInstructions
  | AReset
  | ATick
  | AFinish (o : fetch_outcome).

Definition on_entry_step (s : flow) : bool :=
  match currentStep s with instructions | capture => true | _ => false end.

Definition act (s : flow) (a : action) : option flow :=
  match a with
  | AUpload img => if on_entry_step s then Some (begin_analysis s img false) else None
  | ACapture img =>
      match currentStep s with
      | capture => if isUsingCamera s then Some (begin_analysis s img true) else None
      | _ => None
      end
  | AStartCamera g => if on_entry_step s then Some (startCamera g s) else None
  | ACancelCamera =>
      match currentStep s with
      | capture => if isUsingCamera s then Some (cancelCamera s) else None
      | _ => None
      end
  | ABackToInstructions =>
      match currentStep s with capture => Some (set_step instructions s) | _ => None end
  | AReset => match currentStep s with results => Some (resetDetection s) | _ => None end
  | ATick => Some (tick s)
  | AFinish o => if isAnalyzing s then Some (analyzeImage_finish s o) else None
  end.

Inductive reachable : flow -> Prop :=
  | reach_init : reachable init
  | reach_act s a s' : reachable s -> act s a = Some s' -> reachable s'.

End DetectionFlow.

(* ------------------------------------------------------------------ *)
(** ** CNNDetectionInterface.startAnalysis: progress and intervals *)

Module CNNProgress.

(** Where the running [startAnalysis] is suspended. *)
Inductive stage := AwaitPredict | AwaitSave.

(** [intervals] are the scheduled [progressInterval] handles (several may
    be live: a handle is only cleared by its own callback at 90 or after a
    successful [model.predict]). [pending] is the suspended run, with the
    handle of its own interval. *)
Record cnn := mkCnn {
  analysisProgress : nat;
  isAnalyzing : bool;
  predictionResult : option string;
  intervals : list nat;
  next_handle : nat;
  pending : option (nat * stage)
}.

Definition init : cnn :=
  {| analysisProgress := 0; isAnalyzing := false; predictionResult := None;
     intervals := []; next_handle := 0; pending := None |}.

Inductive cevent :=
  | CStart                  (* Analyze button, [disabled={isAnalyzing || ...}] *)
  | CTick (h : nat)         (* interval [h] fires *)
  | CPredictOk (r : string) (* [await model.predict] resolves *)
  | CPredictFail            (* [await model.predict] rejects *)
  | CSaveDone               (* [await saveDetectionResult] settles *)
  | CReset.                 (* Change Image button, [disabled={isAnalyzing}] *)

Definition remove_handle (h : nat) (l : list nat) : list nat :=
  filter (fun x => x <> h) l.

Definition cact (s : cnn) (e : cevent) : option cnn :=
  match e with
  | CStart =>
      if isAnalyzing s then None else
      Some {| analysisProgress := 0; isAnalyzing := true;
              predictionResult := predictionResult s;
              intervals := next_handle s :: intervals s;
              next_handle := S (next_handle s);
              pending := Some (next_handle s, AwaitPredict) |}
  | CTick h =>
      if decide (h ∈ intervals s) then
        if 90 <=? analysisProgress s then
          Some {| analysisProgress := 90; isAnalyzing := isAnalyzing s;
                  predictionResult := predictionResult s;
                  intervals := remove_handle h (intervals s);
                  next_handle := next_handle s; pending := pending s |}
        else
          Some {| analysisProgress := analysisProgress s + 10;
                  isAnalyzing := isAnalyzing s;
                  predictionResult := predictionResult s;
                  intervals := intervals s;
                  next_handle := next_handle s; pending := pending s |}
      else None
  | CPredictOk r =>
      match pending s with
      | Some (h, AwaitPredict) =>
          Some {| analysisProgress := 100; isAnalyzing := isAnalyzing s;
                  predictionResult := Some r;
                  intervals := remove_handle h (intervals s);
                  next_handle := next_handle s; pending := Some (h, AwaitSave) |}
      | _ => None
      end
  | CPredictFail =>
      (* [catch] logs, [finally] resets [isAnalyzing]; the interval is left *)
      match pending s with
      | Some (h, AwaitPredict) =>
          Some {| analysisProgress := analysisProgress s; isAnalyzing := false;
                  predictionResult := predictionResult s;
                  intervals := intervals s;
                  next_handle := next_handle s; pending := None |}
      | _ => None
      end
  | CSaveDone =>
      match pending s with
      | Some (h, AwaitSave) =>
          Some {| analysisProgress := analysisProgress s; isAnalyzing := false;
                  predictionResult := predictionResult s;
                  intervals := intervals s;
                  next_handle := next_handle s; pending := None |}
      | _ => None
      end
  | CReset =>
      (* [resetAnalysis]: clears the image and the result, progress back to
         0; no interval is touched.  The button is rendered only while an
         image is uploaded, which is not tracked here: allowing it whenever
         it is enabled only adds runs. *)
      if isAnalyzing s then None else
      Some {| analysisProgress := 0; isAnalyzing := isAnalyzing s;
              predictionResult := None;
              intervals := intervals s;
              next_handle := next_handle s; pending := pending s |}
  end.

(** States visited along a trace (the first one included). *)
Fixpoint trace (s : cnn) (es : list cevent) : option (list cnn) :=
  match es with
  | [] => Some [s]
  | e :: es' =>
      match cact s e with
      | Some s' => match trace s' es' with Some l => Some (s :: l) | None => None end
      | None => None
      end
  end.

End CNNProgress.

(* ------------------------------------------------------------------ *)
(** ** CNNDetectionInterface: confidence colour and risk level *)

Module CNNHelpers.

(** JavaScript numbers are IEEE doubles, each of which is a rational; the
    literals compared against are the doubles nearest to 0.9, 0.8, 0.7. *)
Definition d0_9 : Q := Qmake 8106479329266893 9007199254740992.
Definition d0_8 : Q := Qmake 3602879701896397 4503599627370496.
Definition d0_7 : Q := Qmake 3152519739159347 4503599627370496.

(** [getModelStatusColor] (lines 203-207). *)
Definition getModelStatusColor (confidence : Q) : string :=
  if Qle_bool d0_9 confidence then "text-green-400"
  else if Qle_bool d0_7 confidence then "text-yellow-400"
  else "text-red-400".

Record risk := mkRisk { level : string; color : string }.

(** [getRiskLevel] (lines 209-217). *)
Definition getRiskLevel (className : string) (confidence : Q) : risk :=
  if String.eqb className "Normal" || String.eqb className "No DR" then
    {| level := "Low"; color := "bg-green-500/20 text-green-300 border-green-500/30" |}
  else if Qle_bool d0_8 confidence then
    {| level := "High"; color := "bg-red-500/20 text-red-300 border-red-500/30" |}
  else
    {| level := "Medium"; color := "bg-yellow-500/20 text-yellow-300 border-yellow-500/30" |}.

(** Order of the three levels, Low < Medium < High. *)
Definition level_rank (l : string) : nat :=
  if String.eqb l "High" then 2 else if String.eqb l "Medium" then 1 else 0.

Definition color_rank (c : string) : nat :=
  if String.eqb c "text-green-400" then 2
  else if String.eqb c "text-yellow-400" then 1 else 0.

End CNNHelpers.

(* ------------------------------------------------------------------ *)
(** ** DetectionFlow: the camera path as rendered *)

Module DetectionFlowCamera.
Import DetectionFlow.

(** [videoRef] is attached only by the [<video>] element, which is
    rendered in the 'capture' step when [isUsingCamera] holds. *)
Definition video_mounted (s : flow) : bool :=
  match currentStep s with capture => isUsingCamera s | _ => false end.

(** The "Use Camera" button: in 'instructions', and in 'capture' when the
    camera view is not shown. *)
Definition camera_button (s : flow) : bool :=
  match currentStep s with
  | instructions => true
  | capture => negb (isUsingCamera s)
  | _ => false
  end.

(** The component together with the camera resources it holds: the
    [getUserMedia] requests not settled yet, the [MediaStream]s opened and
    not stopped, and whether [videoRef.current.srcObject] holds one. *)
Record cam := mkCam {
  fl : flow;
  requests : nat;
  live_streams : nat;
  attached : bool
}.

Definition cam_init : cam :=
  {| fl := init; requests := 0; live_streams := 0; attached := false |}.

Definition with_fl (f : flow) (c : cam) : cam :=
  {| fl := f; requests := requests c; live_streams := live_streams c;
     attached := attached c |}.

(** [stopCamera] (lines 128-134): the tracks are stopped only
    [if (videoRef.current?.srcObject)]. *)
Definition stopCamera (c : cam) : cam :=
  if attached c then
    {| fl := fl c; requests := requests c; live_streams := pred (live_streams c);
       attached := false |}
  else c.

(** [CamClick] is a click on "Use Camera" (it starts [startCamera], which
    suspends on [await getUserMedia]); [CamResolve granted] settles one
    outstanding request; [CamAct a] is any other action of the flow. *)
Inductive cam_event :=
  | CamAct (a : action)
  | CamClick
  | CamResolve (granted : bool).

Definition act_cam (c : cam) (e : cam_event) : option cam :=
  match e with
  | CamClick =>
      if camera_button (fl c) then
        Some {| fl := fl c; requests := S (requests c); live_streams := live_streams c;
                attached := attached c |}
      else None
  | CamResolve g =>
      match requests c with
      | 0 => None
      | S r =>
          if g then
            (* a stream is opened; it is attached (and the state changed)
               only [if (videoRef.current)] *)
            if video_mounted (fl c) then
              Some {| fl := startCamera true (fl c); requests := r;
                      live_streams := S (live_streams c); attached := true |}
            else
              Some {| fl := fl c; requests := r; live_streams := S (live_streams c);
                      attached := attached c |}
          else
            Some {| fl := startCamera false (fl c); requests := r;
                    live_streams := live_streams c; attached := attached c |}
      end
  | CamAct (AStartCamera _) => None
  | CamAct ((ACapture _ | ACancelCamera) as a) =>
      (* [captureImage] and the Cancel button both call [stopCamera] *)
      match act (fl c) a with
      | Some f => Some (stopCamera (with_fl f c))
      | None => None
      end
  | CamAct a =>
      match act (fl c) a with
      | Some f => Some (with_fl f c)
      | None => None
      end
  end.

(** Reachable states, with the events that led to them. *)
Inductive reach_cam : list cam_event -> cam -> Prop :=
  | rc_init : reach_cam [] cam_init
  | rc_act tr c e c' : reach_cam tr c -> act_cam c e = Some c' -> reach_cam (tr ++ [e]) c'.

Definition granted_count (tr : list cam_event) : nat :=
  length (List.filter (fun e => match e with CamResolve true => true | _ => false end) tr).

End DetectionFlowCamera.

(* ------------------------------------------------------------------ *)
(** ** PWA install prompt, button and status ([src/unnamed/part_000]) *)

Module PWA.

(** [s.includes(sub)] *)
Fixpoint includes (s sub : string) : bool :=
  if String.prefix sub s then true
  else match s with
       | EmptyString => false
       | String _ s' => includes s' sub
       end.

(** What the browser reports at mount. [sessionStorage] is a string map,
    or unavailable. *)
Record env := mkEnv {
  displayModeStandalone : bool;   (* matchMedia('(display-mode: standalone)').matches *)
  navigatorStandalone : bool;     (* (navigator as any).standalone *)
  referrer : string;              (* document.referrer *)
  userAgent : string;
  platform : string;
  maxTouchPoints : nat;
  sessionStorage : option (gmap string string)
}.

(** [checkInstalled] of [PWAInstallPrompt] (and [checkPWAStatus] of
    [PWAStatusIndicator]). *)
Definition prompt_standalone (e : env) : bool :=
  displayModeStandalone e || navigatorStandalone e || includes (referrer e) "android-app://".

(** [checkInstalled] of [PWAInstallButton]: no referrer test. *)
Definition button_standalone (e : env) : bool :=
  displayModeStandalone e || navigatorStandalone e.

(** [checkIOS]: [/iPad|iPhone|iPod/.test(ua) || (platform === 'MacIntel' && maxTouchPoints > 1)]. *)
Definition checkIOS (e : env) : bool :=
  includes (userAgent e) "iPad" || includes (userAgent e) "iPhone"
  || includes (userAgent e) "iPod"
  || (String.eqb (platform e) "MacIntel" && (1 <? maxTouchPoints e)).

Definition dismissed_key : string := "pwa-install-dismissed".

(** [readDismissed]. *)
Definition readDismissed (e : env) : bool :=
  match sessionStorage e with
  | Some st => match st !! dismissed_key with
               | Some v => String.eqb v "true"
               | None => false
               end
  | None => false
  end.

(** [PWAInstallPrompt] state; a deferred prompt is identified by a number. *)
Record prompt := mkPrompt {
  deferredPrompt : option nat;
  showInstallCard : bool;
  isInstalled : bool;
  isIOS : bool;
  isStandalone : bool;
  dismissed : bool;
  storage : option (gmap string string)
}.

(** The mount effect: [checkInstalled], [checkIOS], [readDismissed]. *)
Definition mount_prompt (e : env) : prompt :=
  {| deferredPrompt := None; showInstallCard := false;
     isInstalled := prompt_standalone e; isIOS := checkIOS e;
     isStandalone := prompt_standalone e; dismissed := readDismissed e;
     storage := sessionStorage e |}.

Inductive choice := Accepted | DismissedChoice | PromptThrows.

Inductive pevent :=
  | PBeforeInstallPrompt (id : nat)
  | PAppInstalled
  | PInstallClick (c : choice)
  | PDismiss (write_ok : bool).   (* [write_ok]: [sessionStorage.setItem] does not throw *)

Inductive view := VNull | VIOSAlert | VInstallCard.

(** What [PWAInstallPrompt] renders once mounted. *)
Definition render (s : prompt) : view :=
  if isInstalled s || isStandalone s || dismissed s then VNull
  else if isIOS s then VIOSAlert
  else match deferredPrompt s with
       | Some _ => if showInstallCard s then VInstallCard else VNull
       | None => VNull
       end.

Definition pstep (s : prompt) (ev : pevent) : prompt :=
  match ev with
  | PBeforeInstallPrompt id =>
      {| deferredPrompt := Some id; showInstallCard := true;
         isInstalled := isInstalled s; isIOS := isIOS s;
         isStandalone := isStandalone s; dismissed := dismissed s;
         storage := storage s |}
  | PAppInstalled =>
      {| deferredPrompt := None; showInstallCard := false;
         isInstalled := true; isIOS := isIOS s;
         isStandalone := isStandalone s; dismissed := dismissed s;
         storage := storage s |}
  | PInstallClick c =>
      match deferredPrompt s with
      | None => s
      | Some _ =>
          match c with
          | Accepted =>
              {| deferredPrompt := None; showInstallCard := false;
                 isInstalled := true; isIOS := isIOS s;
                 isStandalone := isStandalone s; dismissed := dismissed s;
                 storage := storage s |}
          | DismissedChoice =>
              {| deferredPrompt := None; showInstallCard := showInstallCard s;
                 isInstalled := isInstalled s; isIOS := isIOS s;
                 isStandalone := isStandalone s; dismissed := dismissed s;
                 storage := storage s |}
          | PromptThrows => s
          end
      end
  | PDismiss w =>
      (* [handleDismiss]: the flag is written in a [try]; a throwing
         [setItem] (e.g. private mode) is ignored *)
      {| deferredPrompt := deferredPrompt s; showInstallCard := false;
         isInstalled := isInstalled s; isIOS := isIOS s;
         isStandalone := isStandalone s; dismissed := true;
         storage := match storage s with
                    | Some st => Some (if w then <[dismissed_key := "true"]> st else st)
                    | None => None
                    end |}
  end.

(** The install button is on the card, the dismiss buttons on the card
    and on the iOS alert. *)
Definition enabled (s : prompt) (ev : pevent) : bool :=
  match ev with
  | PBeforeInstallPrompt _ | PAppInstalled => true
  | PInstallClick _ => match render s with VInstallCard => true | _ => false end
  | PDismiss _ => match render s with VNull => false | _ => true end
  end.

Fixpoint prun (s : prompt) (evs : list pevent) : prompt :=
  match evs with
  | [] => s
  | ev :: evs' => prun (if enabled s ev then pstep s ev else s) evs'
  end.

(** [PWAInstallButton]: renders iff not installed and a prompt is held. *)
Record button := mkButton { b_deferredPrompt : option nat; b_isInstalled : bool }.

Definition mount_button (e : env) : button :=
  {| b_deferredPrompt := None; b_isInstalled := button_standalone e |}.

Definition button_shown (b : button) : bool :=
  negb (b_isInstalled b) && bool_decide (b_deferredPrompt b <> None).

Definition bstep (b : button) (ev : pevent) : button :=
  match ev with
  | PBeforeInstallPrompt id => {| b_deferredPrompt := Some id; b_isInstalled := b_isInstalled b |}
  | PAppInstalled => {| b_deferredPrompt := None; b_isInstalled := true |}
  | PInstallClick c =>
      match b_deferredPrompt b with
      | None => b
      | Some _ =>
          match c with
          | Accepted => {| b_deferredPrompt := None; b_isInstalled := true |}
          | DismissedChoice => {| b_deferredPrompt := None; b_isInstalled := b_isInstalled b |}
          | PromptThrows => b
          end
      end
  | PDismiss _ => b
  end.

(** [PWAStatusIndicator]'s listeners on the display-mode media query: the
    effect of mount [n] adds its [listener] wrapper; its cleanup removes
    its [checkPWAStatus], which was never added. *)
Inductive listener := Wrapper (n : nat) | CheckPWAStatus (n : nat).

Global Instance listener_eq_dec : EqDecision listener.
Proof. solve_decision. Defined.

(** [removeEventListener] removes the registered occurrence, if any. *)
Fixpoint remove_listener (l : listener) (reg : list listener) : list listener :=
  match reg with
  | [] => []
  | x :: xs => if decide (x = l) then xs else x :: remove_listener l xs
  end.

Definition indicator_mount (n : nat) (reg : list listener) : list listener :=
  reg ++ [Wrapper n].

Definition indicator_unmount (n : nat) (reg : list listener) : list listener :=
  remove_listener (CheckPWAStatus n) reg.

(** Mount and unmount [k] successive instances, numbered from [n]. *)
Fixpoint indicator_cycles (n k : nat) (reg : list listener) : list listener :=
  match k with
  | 0 => reg
  | S k' => indicator_cycles (S n) k' (indicator_unmount n (indicator_mount n reg))
  end.

End PWA.

(* ------------------------------------------------------------------ *)
(** ** OfflinePage ([src/src/app/offline/page.tsx]) *)

Module OfflinePage.

(** [getRetryMessage] (lines 88-93). *)
Definition getRetryMessage (retryCount : nat) : string :=
  if Nat.eqb retryCount 0 then "Check your internet connection and try again"
  else if retryCount <? 3 then "Still offline. Let's try again..."
  else if retryCount <? 5 then "Connection is taking longer than expected..."
  else "You can continue using offline features while we keep trying".

(** [retryCount], [isRetrying] (the button's [disabled]), whether the
    [fetch('/api/health')] is outstanding, the pending 2s timers, and
    whether [window.location.reload()] ran. *)
Record page := mkPage {
  retryCount : nat;
  isRetrying : bool;
  inflight : bool;
  timers : nat;
  reloaded : bool
}.

Definition init : page :=
  {| retryCount := 0; isRetrying := false; inflight := false; timers := 0;
     reloaded := false |}.

Inductive revent := RClick | RFetchOk | RFetchNotOk | RFetchThrows | RTimer.

(** [handleRetryConnection] (lines 66-86), split at its [await]; the
    retry button is [disabled={isRetrying}]. *)
Definition ract (s : page) (e : revent) : option page :=
  if reloaded s then None else
  match e with
  | RClick =>
      if isRetrying s then None
      else Some {| retryCount := S (retryCount s); isRetrying := true; inflight := true;
                   timers := timers s; reloaded := false |}
  | RFetchOk =>
      if inflight s then
        Some {| retryCount := retryCount s; isRetrying := isRetrying s; inflight := false;
                timers := timers s; reloaded := true |}
      else None
  | RFetchNotOk =>
      if inflight s then
        Some {| retryCount := retryCount s; isRetrying := isRetrying s; inflight := false;
                timers := timers s; reloaded := false |}
      else None
  | RFetchThrows =>
      if inflight s then
        Some {| retryCount := retryCount s; isRetrying := isRetrying s; inflight := false;
                timers := S (timers s); reloaded := false |}
      else None
  | RTimer =>
      match timers s with
      | S t => Some {| retryCount := retryCount s; isRetrying := false;
                       inflight := inflight s; timers := t; reloaded := false |}
      | 0 => None
      end
  end.

Fixpoint rrun (s : page) (es : list revent) : option page :=
  match es with
  | [] => Some s
  | e :: es' => match ract s e with Some s' => rrun s' es' | None => None end
  end.

Inductive rreach : page -> Prop :=
  | rreach_init : rreach init
  | rreach_act s e s' : rreach s -> ract s e = Some s' -> rreach s'.

End OfflinePage.

(* ------------------------------------------------------------------ *)
(** ** CNNDetectionInterface: the model's lifetime (lines 57-107) *)

Module CNNLifecycle.

(** Models are numbered in creation order. [model] is the state's value;
    [captured] is the [model] of the render whose effect is current, which
    is what its cleanup [if (model) model.dispose()] reads. *)
Record life := mkLife {
  model : option nat;
  captured : option nat;
  created : list nat;
  disposed : list nat;
  next_model : nat
}.

(** The effect body: [initializeCNN] creates a model and calls [setModel]
    before its first [await]; the closure keeps the render's [model]. *)
Definition run_effect (s : life) : life :=
  {| model := Some (next_model s); captured := model s;
     created := created s ++ [next_model s]; disposed := disposed s;
     next_model := S (next_model s) |}.

(** The cleanup of the current effect. *)
Definition cleanup (s : life) : life :=
  {| model := model s; captured := captured s; created := created s;
     disposed := disposed s ++ match captured s with Some m => [m] | None => [] end;
     next_model := next_model s |}.

Definition mount : life :=
  run_effect {| model := None; captured := None; created := []; disposed := [];
                next_model := 0 |}.

(** [diseaseType] changes: the old effect is cleaned up, the new one runs. *)
Definition change_disease (s : life) : life := run_effect (cleanup s).

Definition unmount (s : life) : life := cleanup s.

End CNNLifecycle.

(* ================================================================== *)
(** * Properties *)

(* ------------------------------------------------------------------ *)
(** ** LocalStore *)

Module LocalStoreFacts.
Import Entities LocalStore.

Section Facts.
Context {V : Type}.
Variable size : V -> nat.
Variable budget : nat.

Lemma put_cases (s : gmap string V) k v :
  (put size budget s k v = (PutOk, <[k := v]> s)) \/
  (put size budget s k v = (QuotaExceeded, s)).
Proof. unfold put. case_decide; auto. Qed.

Lemma put_ok_lookup (s s' : gmap string V) k v :
  put size budget s k v = (PutOk, s') -> s' !! k = Some v.
Proof.
  destruct (put_cases s k v) as [E | E]; rewrite E; intros H;
    inversion H; subst. apply lookup_insert_eq.
Qed.



(** C6: A put either lands whole or, on [QuotaExceeded], reports the failure
    as its own result and leaves the store exactly as it was, so that
    [getById] still returns the previous value or not-found for the key. *)
Theorem put_quota_exceeded_atomic (s : gmap string V) (k : string) (v : V) :
  match put size budget s k v with
  | (QuotaExceeded, s') => s' = s /\ getById s' k = getById s k
  | (PutOk, s') => getById s' k = Some v
  end.
Proof.
  destruct (put_cases s k v) as [E | E]; rewrite E.
  - unfold getById. apply lookup_insert_eq.
  - auto.
Qed.

(** C8: [delete(type, id)] never reports an error, deleting twice leaves the
    same store as deleting once, and deleting an absent key changes
    nothing. *)
Theorem store_delete_idempotent (s : gmap string V) (k : string) :
  fst (store_delete s k) = tt /\
  snd (store_delete (snd (store_delete s k)) k) = snd (store_delete s k) /\
  (getById s k = None -> snd (store_delete s k) = s).
Proof.
  unfold store_delete, getById; simpl. repeat split.
  - apply delete_delete_eq.
  - intros H. by apply delete_id.
Qed.
End Facts.

End LocalStoreFacts.

(* ------------------------------------------------------------------ *)
(** ** The save path of startAnalysis *)

Module SaveFacts.
Import Entities LocalStore CNNDetection Sync.








End SaveFacts.

(* ------------------------------------------------------------------ *)
(** ** Who writes [synced] *)

Module SyncFacts.
Import Entities LocalStore CNNDetection Sync SaveFacts.








End SyncFacts.

(* ------------------------------------------------------------------ *)
(** ** Retry backoff *)

Module BackoffFacts.
Import Backoff.

(** C7: For a persistently failing push, with each attempt's jitter drawn
    below that attempt's exponential step, the retry delays of successive
    attempts never decrease and never exceed the cap; and a transient
    failure or timeout leaves the stored record (hence its
    [synced = false]) unchanged. *)
Theorem retry_backoff_non_decreasing_capped budget base cap n js s id s' :
  jitters_in_range base n js ->
  Sync.step budget s (Sync.EvFail id) s' ->
  non_decreasing (retry_delays base cap n js) /\
  Forall (fun d => d <= cap) (retry_delays base cap n js) /\
  Sync.db s' !! id = Sync.db s !! id.
Proof.
  intros Hj Hs. split; [| split].
  - revert n Hj; induction js as [| j js IH]; intros n Hj; simpl; [exact I |].
    destruct Hj as [Hj Hrest]. specialize (IH (S n) Hrest).
    destruct js as [| j2 js]; [exact I |]. split; [| exact IH].
    unfold backoff_delay. rewrite Nat.pow_succ_r'. nia.
  - clear Hj. revert n; induction js as [| j js IH]; intros n; simpl; constructor;
      [unfold backoff_delay; lia | apply IH].
  - inversion Hs; subst. reflexivity.
Qed.

Lemma retry_backoff_non_decreasing_capped_witness :
  let s := {| Sync.isOnline := false; Sync.analysis := None;
              Sync.db := (∅ : gmap string Entities.DetectionResult) |} in
  jitters_in_range 1 0 [0; 1; 3; 7; 15; 31; 63; 0] /\
  Sync.step 1000 s (Sync.EvFail "detection_1_a")
    (Sync.set_db (Sync.on_fail (Sync.db s) "detection_1_a") s) /\
  non_decreasing (retry_delays 1 60 0 [0; 1; 3; 7; 15; 31; 63; 0]) /\
  Forall (fun d => d <= 60) (retry_delays 1 60 0 [0; 1; 3; 7; 15; 31; 63; 0]) /\
  Sync.db (Sync.set_db (Sync.on_fail (Sync.db s) "detection_1_a") s) !! "detection_1_a" =
    Sync.db s !! "detection_1_a".
Proof.
  intros s.
  assert (Hj : jitters_in_range 1 0 [0; 1; 3; 7; 15; 31; 63; 0]) by (simpl; lia).
  assert (Hs : Sync.step 1000 s (Sync.EvFail "detection_1_a")
                 (Sync.set_db (Sync.on_fail (Sync.db s) "detection_1_a") s))
    by apply Sync.step_fail.
  split; [exact Hj | split; [exact Hs |]].
  exact (retry_backoff_non_decreasing_capped 1000 1 60 0 _ s "detection_1_a" _ Hj Hs).
Defined.

End BackoffFacts.

(* ------------------------------------------------------------------ *)
(** ** SyncCoordinator trigger handling *)

Module CoordinatorFacts.
Import Coordinator.

Lemma cstep_in_flight_le_1 c e :
  length (in_flight c) <= 1 -> length (in_flight (cstep c e)) <= 1.
Proof.
  destruct e; simpl; [| lia].
  unfold request_sync. destruct (in_flight c) eqn:E; simpl; [lia | rewrite E; auto].
Qed.

Lemma run_in_flight_le_1 es :
  forall c, length (in_flight c) <= 1 -> length (in_flight (run c es)) <= 1.
Proof.
  induction es as [| e es IH]; intros c Hc; simpl; [exact Hc |].
  apply IH. apply cstep_in_flight_le_1. exact Hc.
Qed.

Lemma requests_while_syncing k c :
  in_flight c <> [] -> requests k c = (repeat AlreadyRunning k, c).
Proof.
  intros Hne. induction k as [| k IH]; simpl; [reflexivity |].
  unfold request_sync. destruct (in_flight c) eqn:E; [congruence |].
  fold (request_sync c). rewrite IH. reflexivity.
Qed.

Lemma count_already_running k :
  length (List.filter is_started (repeat AlreadyRunning k)) = 0.
Proof. induction k; simpl; auto. Qed.

(** C5: In every state reached from [Idle], at most one pass is [Syncing]; a
    trigger while a pass is [Syncing] is answered "already running" and
    leaves the coordinator unchanged (nothing is queued); and any number
    of back-to-back triggers starts at most one pass. *)
Theorem at_most_one_sync_pass (es : list cevent) :
  length (in_flight (run init es)) <= 1 /\
  (phase_of (run init es) = Syncing ->
   request_sync (run init es) = (AlreadyRunning, run init es)) /\
  (forall k,
     length (List.filter is_started (fst (requests k (run init es)))) <= 1 /\
     length (in_flight (snd (requests k (run init es)))) <= 1).
Proof.
  pose proof (run_in_flight_le_1 es init (le_0_n 1)) as Hinv.
  set (c := run init es) in *.
  split; [exact Hinv |]. split.
  - unfold phase_of, request_sync. destruct (in_flight c); [discriminate | auto].
  - intros k. destruct (in_flight c) as [| p ps] eqn:E.
    + destruct k as [| k]; simpl; [rewrite E; simpl; lia |].
      unfold request_sync. rewrite E.
      rewrite requests_while_syncing by (simpl; discriminate). simpl.
      rewrite count_already_running. simpl. lia.
    + rewrite requests_while_syncing by congruence. simpl.
      rewrite count_already_running, E. simpl in Hinv |- *. lia.
Qed.

End CoordinatorFacts.

(* ------------------------------------------------------------------ *)
(** ** Connectivity state *)

Module ConnectivityFacts.
Import Connectivity.

(** C4 (counterexample): [isOnline] becomes true without any probe of a health endpoint (its
    outcome is never consulted), and a flip to Online is taken over at the
    very instant of the ['online'] event: offline at time 9, online at 10. *)
Lemma isOnline_without_probe_or_hysteresis :
  ~ (forall (probe_ok : bool) nav evs t, isOnline_at nav evs t = true -> probe_ok = true) /\
  isOnline_at false [(10, EvOnline)] 9 = false /\
  isOnline_at false [(10, EvOnline)] 10 = true.
Proof.
  split; [| split; reflexivity].
  intros H. discriminate (H false true [] 0 eq_refl).
Qed.

Lemma fold_later_events nav (evs : list (nat * platform_event)) t :
  Forall (fun p => t < fst p) evs ->
  fold_left (fun st '(ts, e) => if ts <=? t then handle st e else st) evs nav = nav.
Proof.
  revert nav. induction evs as [| [ts e] evs IH]; intros nav Hf; simpl; [reflexivity |].
  inversion Hf as [| ? ? Hts Hrest]; subst. simpl in Hts.
  replace (ts <=? t) with false by (symmetry; apply Nat.leb_gt; lia).
  apply IH. exact Hrest.
Qed.

(** C4 (amended): [isOnline] at time [t] is exactly the platform flag: [navigator.onLine]
    read at mount when no event has arrived by [t], otherwise the value of
    the latest ['online'] / ['offline'] event received by [t]. *)
Theorem isOnline_is_platform_flag nav (evs : list (nat * platform_event)) t :
  (Forall (fun p => t < fst p) evs -> isOnline_at nav evs t = nav) /\
  (forall pre ts e post,
     evs = pre ++ (ts, e) :: post -> ts <= t -> Forall (fun p => t < fst p) post ->
     isOnline_at nav evs t = match e with EvOnline => true | EvOffline => false end).
Proof.
  split.
  - apply fold_later_events.
  - intros pre ts e post -> Hts Hpost. unfold isOnline_at.
    rewrite fold_left_app. simpl.
    replace (ts <=? t) with true by (symmetry; apply Nat.leb_le; lia).
    rewrite fold_later_events by exact Hpost. destruct e; reflexivity.
Qed.

End ConnectivityFacts.

(* ------------------------------------------------------------------ *)
(** ** DetectionFlow *)

Module DetectionFlowFacts.
Import DetectionFlow.

Definition flow_inv (s : flow) : Prop :=
  (isAnalyzing s = true -> currentStep s = analyzing) /\
  (currentStep s <> results -> detectionResult s = None) /\
  (currentStep s = results -> isAnalyzing s = false /\ detectionResult s <> None) /\
  (intervalActive s = true -> isAnalyzing s = true) /\
  (isAnalyzing s = true -> exists k, analysisProgress s = 10 * k /\ k <= 9) /\
  (analysisProgress s = 100 -> currentStep s = results).

Lemma flow_inv_init : flow_inv init.
Proof. unfold flow_inv; simpl; repeat split; intros; discriminate. Qed.

Ltac flow_inv_close H1 H3 H6 :=
  repeat split; intros; try discriminate; try congruence;
  try (exists 0; lia); try lia; auto;
  match goal with
  | H : _ |- _ => solve [ pose proof (H1 H); discriminate
                        | pose proof (H6 H); discriminate ]
  end.

Lemma flow_inv_act s a s' : flow_inv s -> act s a = Some s' -> flow_inv s'.
Proof.
  destruct s as [st img an pr dr er cam iv].
  intros (H1 & H2 & H3 & H4 & H5 & H6) Hact.
  unfold flow_inv; simpl in *.
  destruct a as [i | i | g | | | | | o]; simpl in Hact;
    unfold on_entry_step in Hact; simpl in Hact.
  - (* AUpload *)
    destruct st; try discriminate; injection Hact as <-; simpl;
      flow_inv_close H1 H3 H6.
  - (* ACapture *)
    destruct st; try discriminate; destruct cam; try discriminate;
      injection Hact as <-; simpl; flow_inv_close H1 H3 H6.
  - (* AStartCamera *)
    destruct st; try discriminate; injection Hact as <-;
      destruct g; simpl; flow_inv_close H1 H3 H6.
  - (* ACancelCamera *)
    destruct st; try discriminate; destruct cam; try discriminate;
      injection Hact as <-; simpl; flow_inv_close H1 H3 H6.
  - (* ABackToInstructions *)
    destruct st; try discriminate; injection Hact as <-; simpl;
      flow_inv_close H1 H3 H6.
  - (* AReset *)
    destruct st; try discriminate; injection Hact as <-; simpl;
      repeat split; intros; try discriminate; auto.
    + destruct (H3 eq_refl); congruence.
    + exists 0; lia.
  - (* ATick *)
    injection Hact as <-. unfold tick; cbn [intervalActive analysisProgress].
    destruct iv;
      [| simpl; exact (conj H1 (conj H2 (conj H3 (conj H4 (conj H5 H6)))))].
    specialize (H4 eq_refl). destruct (H5 H4) as [k [Hk Hk9]].
    specialize (H1 H4).
    destruct (Nat.leb_spec 90 pr); simpl; repeat split; auto; intros;
      try (exfalso; congruence); try lia.
    + exists 9. lia.
    + exists (S k). lia.
  - (* AFinish *)
    destruct an; try discriminate. injection Hact as <-.
    specialize (H1 eq_refl). subst st.
    destruct (H5 eq_refl) as [k [Hk Hk9]].
    destruct o as [| | [r |]]; simpl; repeat split; auto; intros;
      try discriminate; try lia.
    all: try (apply H2; discriminate).
    all: exfalso; apply H; reflexivity.
Qed.

Lemma reachable_inv s : reachable s -> flow_inv s.
Proof.
  induction 1 as [| s a s' _ IH Hact]; [apply flow_inv_init |].
  eapply flow_inv_act; eauto.
Qed.

(** C9: In a reachable state of [DetectionFlow] with an analysis running, a
    rejected fetch, a response that is not [ok] (or whose JSON cannot be
    read) sets the error 'Analysis failed. Please try again.', returns to
    the 'capture' step and leaves [detectionResult] unchanged, that is
    null; and the 'results' step is only entered by a successful response
    whose result becomes [detectionResult]. *)
Theorem analyzeImage_failure_returns_to_capture s :
  reachable s ->
  (forall o, isAnalyzing s = true ->
     (o = FetchRejects \/ o = FetchNotOk \/ o = FetchOk None) ->
     error (analyzeImage_finish s o) = Some analysis_failed_msg /\
     currentStep (analyzeImage_finish s o) = capture /\
     detectionResult (analyzeImage_finish s o) = detectionResult s /\
     detectionResult (analyzeImage_finish s o) = None) /\
  (forall a s', act s a = Some s' -> currentStep s' = results ->
     currentStep s = results \/
     exists r, a = AFinish (FetchOk (Some r)) /\ detectionResult s' = Some r).
Proof.
  intros Hr. pose proof (reachable_inv s Hr) as (H1 & H2 & _).
  split.
  - intros o Han Ho. specialize (H1 Han).
    destruct Ho as [-> | [-> | ->]]; simpl; repeat split;
      apply H2; rewrite H1; discriminate.
  - intros a s' Hact Hres.
    destruct (currentStep s) eqn:Est; [| | | left; reflexivity];
    destruct a as [i | i | g | | | | | o]; simpl in Hact;
      unfold on_entry_step in Hact; rewrite ?Est in Hact;
      try discriminate;
      repeat match type of Hact with
             | (if ?b then _ else _) = _ => destruct b; try discriminate
             end;
      injection Hact as <-; simpl in Hres; try discriminate;
      try (unfold tick in Hres; destruct (intervalActive s), (90 <=? analysisProgress s);
           simpl in Hres; rewrite ?Est in Hres; discriminate);
      try (unfold startCamera in Hres; destruct g; simpl in Hres; congruence);
      try (simpl in Hres; congruence).
    all: destruct o as [| | [r |]]; simpl in Hres; try discriminate.
    all: right; exists r; split; reflexivity.
Qed.

Lemma analyzeImage_failure_returns_to_capture_witness :
  reachable (begin_analysis init "data:image/jpeg;base64,AAAA" false) /\
  error (analyzeImage_finish (begin_analysis init "data:image/jpeg;base64,AAAA" false)
           FetchNotOk) = Some analysis_failed_msg /\
  currentStep (analyzeImage_finish (begin_analysis init "data:image/jpeg;base64,AAAA" false)
           FetchNotOk) = capture.
Proof.
  assert (Hr : reachable (begin_analysis init "data:image/jpeg;base64,AAAA" false)).
  { apply (reach_act init (AUpload "data:image/jpeg;base64,AAAA"));
      [apply reach_init | reflexivity]. }
  destruct (analyzeImage_failure_returns_to_capture _ Hr) as [Hf _].
  destruct (Hf FetchNotOk eq_refl (or_intror (or_introl eq_refl)))
    as (He & Hs & _).
  split; [exact Hr | split; [exact He | exact Hs]].
Defined.

(** The DetectionFlow half of the progress property: while an analysis is
    running every update keeps the progress, adds 10, or sets 100 together
    with the parsed result; it stays at most 90 while the request is
    outstanding. *)
Lemma detectionFlow_progress_step s a s' :
  reachable s -> isAnalyzing s = true -> act s a = Some s' ->
  analysisProgress s <= analysisProgress s' /\
  (analysisProgress s' = analysisProgress s \/
   analysisProgress s' = analysisProgress s + 10 \/
   (analysisProgress s' = 100 /\
    exists r, a = AFinish (FetchOk (Some r)) /\ detectionResult s' = Some r)) /\
  (isAnalyzing s' = true -> analysisProgress s' <= 90).
Proof.
  intros Hr Han Hact.
  pose proof (reachable_inv s Hr) as (H1 & _ & _ & _ & H5 & _).
  pose proof (reachable_inv s' (reach_act s a s' Hr Hact)) as (_ & _ & _ & _ & H5' & _).
  specialize (H1 Han). destruct (H5 Han) as [k [Hk Hk9]].
  split; [| split; [| intros Han'; destruct (H5' Han') as [k' [? ?]]; lia]].
  - destruct a as [i | i | g | | | | | o]; simpl in Hact;
      unfold on_entry_step in Hact; rewrite ?H1 in Hact; try discriminate.
    + injection Hact as <-. unfold tick.
      destruct (intervalActive s); [| lia].
      destruct (Nat.leb_spec 90 (analysisProgress s)); simpl; lia.
    + rewrite Han in Hact. injection Hact as <-.
      destruct o as [| | [r |]]; simpl; lia.
  - destruct a as [i | i | g | | | | | o]; simpl in Hact;
      unfold on_entry_step in Hact; rewrite ?H1 in Hact; try discriminate.
    + injection Hact as <-. unfold tick.
      destruct (intervalActive s); [| left; reflexivity].
      destruct (Nat.leb_spec 90 (analysisProgress s)); simpl; [left | right; left]; lia.
    + rewrite Han in Hact. injection Hact as <-.
      destruct o as [| | [r |]]; simpl; [left; reflexivity | left; reflexivity | |
                                          left; reflexivity].
      right; right. split; [reflexivity | exists r; split; reflexivity].
Qed.

End DetectionFlowFacts.

(* ------------------------------------------------------------------ *)
(** ** Progress of CNNDetectionInterface.startAnalysis *)

Module CNNProgressFacts.
Import CNNProgress.

(** C10: A prediction that rejects leaves its [progressInterval] scheduled.
    When the next run's prediction succeeds while that interval is still
    live, progress is set to 100 and the stale interval's next firing
    ([prev >= 90 ? 90 : ...]) sets it back to 90 while this second run is
    still awaiting [saveDetectionResult]. *)
Theorem startAnalysis_progress_drops_after_result :
  option_map (map (fun s => (analysisProgress s, pending s)))
    (trace init [CStart; CTick 0; CPredictFail; CStart; CPredictOk "Glaucoma"; CTick 0])
  = Some [(0, None); (0, Some (0, AwaitPredict)); (10, Some (0, AwaitPredict));
          (10, None); (0, Some (1, AwaitPredict)); (100, Some (1, AwaitSave));
          (90, Some (1, AwaitSave))].
Proof. reflexivity. Qed.

End CNNProgressFacts.

(* ------------------------------------------------------------------ *)
(** ** Confidence colour and risk level *)

Module CNNHelpersFacts.
Import CNNHelpers.

Lemma Qle_bool_mono a q1 q2 :
  (q1 <= q2)%Q -> Qle_bool a q1 = true -> Qle_bool a q2 = true.
Proof.
  intros Hq H1. apply Qle_bool_iff in H1. apply Qle_bool_iff.
  eapply Qle_trans; eassumption.
Qed.

(** For a fixed class, a higher confidence never lowers the risk level. *)
Theorem getRiskLevel_monotone className q1 q2 :
  (q1 <= q2)%Q ->
  level_rank (level (getRiskLevel className q1))
    <= level_rank (level (getRiskLevel className q2)).
Proof.
  intros Hq. unfold getRiskLevel.
  destruct (String.eqb className "Normal" || String.eqb className "No DR"); simpl;
    [cbv; lia |].
  destruct (Qle_bool d0_8 q1) eqn:E1.
  - rewrite (Qle_bool_mono _ _ _ Hq E1). cbv; lia.
  - destruct (Qle_bool d0_8 q2); cbv; lia.
Qed.

Lemma getRiskLevel_monotone_witness :
  (Qmake 1 2 <= Qmake 9 10)%Q /\
  level_rank (level (getRiskLevel "Glaucoma" (Qmake 1 2)))
    <= level_rank (level (getRiskLevel "Glaucoma" (Qmake 9 10))).
Proof.
  split; [vm_compute; discriminate |].
  apply (getRiskLevel_monotone "Glaucoma" (Qmake 1 2) (Qmake 9 10)).
  vm_compute; discriminate.
Defined.

(** A higher confidence never gives a worse [getModelStatusColor]
    (red, then yellow from 0.7, then green from 0.9). *)
Theorem getModelStatusColor_monotone q1 q2 :
  (q1 <= q2)%Q ->
  color_rank (getModelStatusColor q1) <= color_rank (getModelStatusColor q2).
Proof.
  intros Hq. unfold getModelStatusColor.
  destruct (Qle_bool d0_9 q1) eqn:E1.
  - rewrite (Qle_bool_mono _ _ _ Hq E1). cbv; lia.
  - destruct (Qle_bool d0_7 q1) eqn:E2.
    + rewrite (Qle_bool_mono _ _ _ Hq E2).
      destruct (Qle_bool d0_9 q2); cbv; lia.
    + destruct (Qle_bool d0_9 q2); [| destruct (Qle_bool d0_7 q2)]; cbv; lia.
Qed.

Lemma getModelStatusColor_monotone_witness :
  (Qmake 3 4 <= Qmake 19 20)%Q /\
  color_rank (getModelStatusColor (Qmake 3 4))
    <= color_rank (getModelStatusColor (Qmake 19 20)).
Proof.
  split; [vm_compute; discriminate |].
  apply (getModelStatusColor_monotone (Qmake 3 4) (Qmake 19 20)).
  vm_compute; discriminate.
Defined.

End CNNHelpersFacts.

(* ------------------------------------------------------------------ *)
(** ** DetectionFlow: the camera path as rendered *)

Module DetectionFlowCameraFacts.
Import DetectionFlow DetectionFlowCamera.

Lemma act_keeps_no_camera s a s' :
  (forall g, a <> AStartCamera g) ->
  isUsingCamera s = false -> act s a = Some s' -> isUsingCamera s' = false.
Proof.
  intros Hns Hc Hact. destruct a; simpl in Hact.
  - destruct (on_entry_step s); [| discriminate]. injection Hact as <-. exact Hc.
  - destruct (currentStep s); try discriminate. rewrite Hc in Hact. discriminate.
  - exfalso; exact (Hns granted eq_refl).
  - destruct (currentStep s); try discriminate. rewrite Hc in Hact. discriminate.
  - destruct (currentStep s); try discriminate. injection Hact as <-. exact Hc.
  - destruct (currentStep s); try discriminate. injection Hact as <-. exact Hc.
  - injection Hact as <-. unfold tick.
    destruct (intervalActive s); [destruct (90 <=? analysisProgress s) |]; exact Hc.
  - destruct (isAnalyzing s); [| discriminate]. injection Hact as <-.
    destruct o as [| | [r |]]; exact Hc.
Qed.

Lemma granted_count_snoc tr e :
  granted_count (tr ++ [e]) =
  granted_count tr + match e with CamResolve true => 1 | _ => 0 end.
Proof.
  unfold granted_count. rewrite List.filter_app, List.length_app.
  destruct e as [a | | [|]]; reflexivity.
Qed.

Lemma video_unmounted s : isUsingCamera s = false -> video_mounted s = false.
Proof. intros Hc. unfold video_mounted. destruct (currentStep s); auto. Qed.

Lemma reach_cam_inv tr c :
  reach_cam tr c ->
  isUsingCamera (fl c) = false /\ attached c = false /\ live_streams c = granted_count tr.
Proof.
  induction 1 as [| tr c e c' _ IH Hact]; [repeat split |].
  destruct IH as (Hc & Ha & Hl). rewrite granted_count_snoc.
  destruct e as [a | | g].
  - destruct (match a with AStartCamera _ => true | _ => false end) eqn:Es.
    { destruct a; try discriminate Es. discriminate Hact. }
    assert (Hns : forall g, a <> AStartCamera g) by (intros g ->; discriminate Es).
    assert (Hcase : act_cam c (CamAct a) =
                      match act (fl c) a with
                      | Some f => Some (stopCamera (with_fl f c)) | None => None end \/
                    act_cam c (CamAct a) =
                      match act (fl c) a with
                      | Some f => Some (with_fl f c) | None => None end).
    { destruct a; cbn [act_cam]; auto. exfalso; eapply Hns; reflexivity. }
    assert (Hstop : forall f, stopCamera (with_fl f c) = with_fl f c).
    { intros f. unfold stopCamera. simpl. rewrite Ha. reflexivity. }
    rewrite Hact in Hcase.
    destruct (act (fl c) a) as [f |] eqn:Ef; [| destruct Hcase; discriminate].
    rewrite Hstop in Hcase.
    assert (c' = with_fl f c) as -> by (destruct Hcase; congruence).
    simpl. split; [exact (act_keeps_no_camera _ _ _ Hns Hc Ef) |].
    split; [exact Ha | lia].
  - simpl in Hact. destruct (camera_button (fl c)); [| discriminate].
    injection Hact as <-. simpl. repeat split; [exact Hc | exact Ha | lia].
  - simpl in Hact. destruct (requests c) as [| r]; [discriminate |].
    destruct g; [rewrite (video_unmounted _ Hc) in Hact |]; injection Hact as <-; simpl.
    + repeat split; [exact Hc | exact Ha | lia].
    + repeat split; [exact Hc | exact Ha | lia].
Qed.

(** A granted camera request opens a [MediaStream] that nothing ever
    stops: [startCamera] attaches it and sets [isUsingCamera] only when
    [videoRef.current] is set, and the [<video>] that sets it is rendered
    only when [isUsingCamera] already holds. So in every reachable state the
    camera view and its Capture and Cancel buttons are absent, no stream
    is attached (so [stopCamera] would do nothing), and every stream
    granted so far is still live. *)
Theorem camera_streams_never_stopped tr c :
  reach_cam tr c ->
  isUsingCamera (fl c) = false /\ video_mounted (fl c) = false /\
  attached c = false /\
  (forall img, act_cam c (CamAct (ACapture img)) = None) /\
  act_cam c (CamAct ACancelCamera) = None /\
  live_streams c = granted_count tr.
Proof.
  intros Hr. destruct (reach_cam_inv tr c Hr) as (Hc & Ha & Hl).
  split; [exact Hc | split; [exact (video_unmounted _ Hc) | split; [exact Ha |]]].
  split; [| split; [| exact Hl]].
  - intros img. simpl. destruct (currentStep (fl c)); try reflexivity. rewrite Hc. reflexivity.
  - simpl. destruct (currentStep (fl c)); try reflexivity. rewrite Hc. reflexivity.
Qed.

Lemma camera_streams_never_stopped_witness :
  let c := {| fl := init; requests := 0; live_streams := 2; attached := false |} in
  reach_cam [CamClick; CamClick; CamResolve true; CamResolve true] c /\
  live_streams c = 2 /\
  (isUsingCamera (fl c) = false /\ video_mounted (fl c) = false /\
   attached c = false /\
   (forall img, act_cam c (CamAct (ACapture img)) = None) /\
   act_cam c (CamAct ACancelCamera) = None /\
   live_streams c = granted_count [CamClick; CamClick; CamResolve true; CamResolve true]).
Proof.
  intros c.
  assert (Hr : reach_cam [CamClick; CamClick; CamResolve true; CamResolve true] c).
  { change [CamClick; CamClick; CamResolve true; CamResolve true]
      with (((([] ++ [CamClick]) ++ [CamClick]) ++ [CamResolve true]) ++ [CamResolve true]).
    apply (rc_act _ {| fl := init; requests := 1; live_streams := 1; attached := false |});
      [| reflexivity].
    apply (rc_act _ {| fl := init; requests := 2; live_streams := 0; attached := false |});
      [| reflexivity].
    apply (rc_act _ {| fl := init; requests := 1; live_streams := 0; attached := false |});
      [| reflexivity].
    apply (rc_act _ cam_init); [apply rc_init | reflexivity]. }
  split; [exact Hr | split; [reflexivity |]].
  exact (camera_streams_never_stopped _ c Hr).
Defined.

End DetectionFlowCameraFacts.

(* ------------------------------------------------------------------ *)
(** ** CNNDetectionInterface.startAnalysis while predictions succeed *)

Module CNNProgressNoFailFacts.
Import CNNProgress.

(** Runs in which no [model.predict] rejects. *)
Inductive reach_nf : cnn -> Prop :=
  | nf_init : reach_nf init
  | nf_act s e s' : reach_nf s -> cact s e = Some s' -> e <> CPredictFail -> reach_nf s'.

Definition nf_inv (s : cnn) : Prop :=
  (forall h, h ∈ intervals s -> pending s = Some (h, AwaitPredict)) /\
  (forall h, pending s = Some (h, AwaitPredict) ->
     exists k, analysisProgress s = 10 * k /\ k <= 9) /\
  (forall h, pending s = Some (h, AwaitSave) -> analysisProgress s = 100) /\
  (isAnalyzing s = false <-> pending s = None).

Lemma elem_of_remove_handle x h l : x ∈ remove_handle h l -> x ∈ l /\ x <> h.
Proof. unfold remove_handle. rewrite list_elem_of_filter. tauto. Qed.

Lemma nf_inv_step s e s' :
  nf_inv s -> cact s e = Some s' -> e <> CPredictFail -> nf_inv s'.
Proof.
  intros (H1 & H2 & H3 & H4) Hact Hne.
  destruct e as [| h | r | | | ]; unfold cact in Hact.
  - destruct (isAnalyzing s) eqn:Ea; [discriminate |]. injection Hact as <-.
    assert (Hp : pending s = None) by (apply H4; reflexivity).
    unfold nf_inv; simpl; repeat split.
    + intros h Hh. apply elem_of_cons in Hh as [-> | Hh]; [reflexivity |].
      rewrite (H1 h Hh) in Hp; discriminate.
    + intros h Hh. exists 0. lia.
    + intros h Hh; discriminate.
    + discriminate.
    + discriminate.
  - destruct (decide (h ∈ intervals s)) as [Hin |]; [| discriminate].
    pose proof (H1 h Hin) as Hph. destruct (H2 h Hph) as [k [Hk Hk9]].
    destruct (90 <=? analysisProgress s) eqn:Eb;
      [apply Nat.leb_le in Eb | apply Nat.leb_gt in Eb]; injection Hact as <-;
      unfold nf_inv; simpl; repeat split; auto.
    + intros x Hx. apply elem_of_remove_handle in Hx as [Hx _]. exact (H1 x Hx).
    + intros h' _. exists 9. lia.
    + intros h' Hh'. congruence.
    + apply H4.
    + apply H4.
    + intros h' Hh'. exists (S k). lia.
    + intros h' Hh'. congruence.
    + apply H4.
    + apply H4.
  - destruct (pending s) as [[h [|]] |] eqn:Ep; try discriminate. injection Hact as <-.
    unfold nf_inv; simpl; repeat split.
    + intros x Hx. apply elem_of_remove_handle in Hx as [Hx Hxh].
      pose proof (H1 x Hx) as Hx'. injection Hx' as Hx'. congruence.
    + intros h' Hh'; discriminate.
    + intros Ha. apply H4 in Ha. discriminate.
    + discriminate.
  - exfalso; apply Hne; reflexivity.
  - destruct (pending s) as [[h [|]] |] eqn:Ep; try discriminate. injection Hact as <-.
    unfold nf_inv; simpl; repeat split.
    + intros x Hx. pose proof (H1 x Hx) as Hx'. discriminate.
    + intros h' Hh'; discriminate.
    + intros h' Hh'; discriminate.
  - destruct (isAnalyzing s) eqn:Ea; [discriminate |]. injection Hact as <-.
    assert (Hp : pending s = None) by (apply H4; reflexivity).
    unfold nf_inv; simpl; repeat split.
    + intros x Hx. rewrite (H1 x Hx) in Hp; discriminate.
    + intros h' Hh'; congruence.
    + intros h' Hh'; congruence.
    + intros _; exact Hp.
Qed.

Lemma reach_nf_inv s : reach_nf s -> nf_inv s.
Proof.
  induction 1 as [| s e s' _ IH Hact Hne].
  - unfold nf_inv; simpl; repeat split; intros; try discriminate; try reflexivity.
    exfalso; eapply not_elem_of_nil; eassumption.
  - exact (nf_inv_step s e s' IH Hact Hne).
Qed.

(** As long as no prediction rejects, at most one progress interval is
    live and it belongs to the prediction in flight, the progress stays at
    most 90 while the prediction runs, and only a new analysis or the
    Change Image button ([resetAnalysis]) makes the progress go down. *)
Theorem progress_monotone_without_failure s :
  reach_nf s ->
  (forall h, h ∈ intervals s -> pending s = Some (h, AwaitPredict)) /\
  (forall h, pending s = Some (h, AwaitPredict) -> analysisProgress s <= 90) /\
  (forall e s', e <> CStart -> e <> CReset -> cact s e = Some s' ->
     analysisProgress s <= analysisProgress s').
Proof.
  intros Hr. destruct (reach_nf_inv s Hr) as (H1 & H2 & H3 & H4).
  split; [exact H1 |]. split.
  { intros h Hh. destruct (H2 h Hh) as [k [Hk Hk9]]. lia. }
  intros e s' Hne Hne' Hact. destruct e as [| h | r | | | ]; unfold cact in Hact.
  - exfalso; apply Hne; reflexivity.
  - destruct (decide (h ∈ intervals s)) as [Hin |]; [| discriminate].
    destruct (H2 h (H1 h Hin)) as [k [Hk Hk9]].
    destruct (90 <=? analysisProgress s) eqn:Eb;
      [apply Nat.leb_le in Eb | apply Nat.leb_gt in Eb]; injection Hact as <-; simpl; lia.
  - destruct (pending s) as [[h [|]] |] eqn:Ep; try discriminate. injection Hact as <-.
    simpl. destruct (H2 h eq_refl) as [k [Hk Hk9]]. lia.
  - destruct (pending s) as [[h [|]] |]; try discriminate. injection Hact as <-. simpl; lia.
  - destruct (pending s) as [[h [|]] |]; try discriminate. injection Hact as <-. simpl; lia.
  - exfalso; apply Hne'; reflexivity.
Qed.

Lemma progress_monotone_without_failure_witness :
  let s := {| analysisProgress := 10; isAnalyzing := true; predictionResult := None;
              intervals := [0]; next_handle := 1; pending := Some (0, AwaitPredict) |} in
  reach_nf s /\
  ((forall h, h ∈ intervals s -> pending s = Some (h, AwaitPredict)) /\
   (forall h, pending s = Some (h, AwaitPredict) -> analysisProgress s <= 90) /\
   (forall e s', e <> CStart -> e <> CReset -> cact s e = Some s' ->
      analysisProgress s <= analysisProgress s')).
Proof.
  intros s.
  assert (Hr : reach_nf s).
  { apply (nf_act {| analysisProgress := 0; isAnalyzing := true; predictionResult := None;
                     intervals := [0]; next_handle := 1; pending := Some (0, AwaitPredict) |}
             (CTick 0)); [| reflexivity | discriminate].
    apply (nf_act init CStart); [constructor | reflexivity | discriminate]. }
  split; [exact Hr | exact (progress_monotone_without_failure s Hr)].
Defined.

End CNNProgressNoFailFacts.

(* ------------------------------------------------------------------ *)
(** ** PWA install prompt, button and status indicator *)

Module PWAFacts.
Import PWA.

Definition hidden (s : prompt) : bool := isInstalled s || isStandalone s || dismissed s.

Lemma hidden_pstep s ev : hidden s = true -> hidden (pstep s ev) = true.
Proof.
  unfold hidden; destruct ev as [id | | c | w]; simpl; intros H.
  - exact H.
  - reflexivity.
  - destruct (deferredPrompt s); [| exact H]. destruct c; simpl; auto.
  - rewrite !orb_true_r; reflexivity.
Qed.

Lemma hidden_prun s evs : hidden s = true -> hidden (prun s evs) = true.
Proof.
  revert s; induction evs as [| ev evs IH]; intros s H; simpl; [exact H |].
  apply IH. destruct (enabled s ev); [apply hidden_pstep |]; exact H.
Qed.

Lemma render_hidden s : hidden s = true -> render s = VNull.
Proof. unfold render, hidden; intros ->; reflexivity. Qed.

(** Once the app is installed, runs standalone, or the prompt has been
    dismissed, [PWAInstallPrompt] renders nothing, whatever happens
    afterwards (a new [beforeinstallprompt] included). *)
Theorem prompt_hidden_forever s evs :
  (isInstalled s || isStandalone s || dismissed s) = true ->
  render (prun s evs) = VNull.
Proof. intros H. apply render_hidden, hidden_prun, H. Qed.

Lemma prompt_hidden_forever_witness :
  let s := pstep (mount_prompt (mkEnv false false "" "Mozilla/5.0 (X11; Linux x86_64)"
                                  "Linux x86_64" 0 (Some ∅))) (PDismiss true) in
  (isInstalled s || isStandalone s || dismissed s) = true /\
  render (prun s [PBeforeInstallPrompt 7]) = VNull.
Proof.
  intros s. split; [reflexivity |].
  apply (prompt_hidden_forever s [PBeforeInstallPrompt 7]). reflexivity.
Defined.

(** What the dismissal leaves in [sessionStorage]. *)
Definition storage_inv (s : prompt) : Prop :=
  dismissed s = true ->
  match storage s with Some st => st !! dismissed_key = Some "true" | None => True end.

Lemma storage_inv_pstep s ev :
  ev <> PDismiss false -> storage_inv s -> storage_inv (pstep s ev).
Proof.
  unfold storage_inv; destruct ev as [id | | c | w]; simpl; intros Hw H.
  - exact H.
  - exact H.
  - destruct (deferredPrompt s); [| exact H]. destruct c; simpl; exact H.
  - destruct w; [| contradiction].
    intros _. destruct (storage s); [apply lookup_insert_eq | exact I].
Qed.

Lemma storage_some_pstep s ev : storage s <> None -> storage (pstep s ev) <> None.
Proof.
  destruct ev as [id | | c | w]; simpl; intros H; auto.
  - destruct (deferredPrompt s); [destruct c |]; simpl; exact H.
  - destruct (storage s); [discriminate | exact H].
Qed.

Lemma prun_storage s evs :
  Forall (fun ev => ev <> PDismiss false) evs ->
  storage_inv s -> storage s <> None ->
  storage_inv (prun s evs) /\ storage (prun s evs) <> None.
Proof.
  revert s; induction evs as [| ev evs IH]; intros s Hf H1 H2; simpl; [auto |].
  inversion Hf as [| ? ? Hev Hf']; subst.
  apply IH; [exact Hf' | |]; destruct (enabled s ev);
    auto using storage_inv_pstep, storage_some_pstep.
Qed.

(** "Maybe Later" survives a remount in the same tab when the flag could
    be written: once the prompt has been dismissed with [sessionStorage]
    available and every [setItem] of the dismissals succeeding, a
    [PWAInstallPrompt] mounted later on that storage reads the flag back
    and renders nothing, whatever happens afterwards. When [setItem]
    throws (the error is caught and ignored), the prompt is hidden for
    this mount only: on a browser that is neither iOS nor standalone, a
    remount on the unchanged storage shows the install card again at the
    next [beforeinstallprompt]. *)
Theorem dismiss_survives_remount e evs e' evs' :
  sessionStorage e <> None ->
  Forall (fun ev => ev <> PDismiss false) evs ->
  dismissed (prun (mount_prompt e) evs) = true ->
  sessionStorage e' = storage (prun (mount_prompt e) evs) ->
  render (prun (mount_prompt e') evs') = VNull /\
  (forall e0 st id e1,
     sessionStorage e0 = Some st -> st !! dismissed_key = None ->
     prompt_standalone e0 = false -> checkIOS e0 = false ->
     sessionStorage e1 = storage (prun (mount_prompt e0) [PBeforeInstallPrompt id; PDismiss false]) ->
     prompt_standalone e1 = false -> checkIOS e1 = false ->
     dismissed (prun (mount_prompt e0) [PBeforeInstallPrompt id; PDismiss false]) = true /\
     render (prun (mount_prompt e1) [PBeforeInstallPrompt id]) = VInstallCard).
Proof.
  intros Hst Hf Hd He'. split.
  - assert (Hinv : storage_inv (mount_prompt e)).
    { unfold storage_inv, mount_prompt, readDismissed; simpl.
      destruct (sessionStorage e) as [st |]; [| intros; exact I].
      destruct (st !! dismissed_key) as [v |]; [| discriminate].
      intros Hv. apply String.eqb_eq in Hv. subst v. reflexivity. }
    destruct (prun_storage (mount_prompt e) evs Hf Hinv Hst) as [H1 H2].
    specialize (H1 Hd). rewrite <- He' in H1, H2.
    apply render_hidden, hidden_prun. unfold hidden, mount_prompt, readDismissed; simpl.
    destruct (sessionStorage e') as [st |]; [| contradiction].
    rewrite H1. simpl. rewrite !orb_true_r. reflexivity.
  - intros e0 st id e1 H0 Hk Hs0 Hi0 H1 Hs1 Hi1.
    assert (Hstore : storage (prun (mount_prompt e0) [PBeforeInstallPrompt id; PDismiss false])
                     = Some st).
    { unfold prun, enabled, pstep, render, mount_prompt, readDismissed; simpl.
      rewrite Hs0, Hi0, H0, Hk. reflexivity. }
    split.
    + unfold prun, enabled, pstep, render, mount_prompt, readDismissed; simpl.
      rewrite Hs0, Hi0, H0, Hk. reflexivity.
    + rewrite Hstore in H1.
      unfold prun, enabled, pstep, render, mount_prompt, readDismissed; simpl.
      rewrite Hs1, Hi1, H1, Hk. reflexivity.
Qed.

Definition desktop_env (st : option (gmap string string)) : env :=
  mkEnv false false "" "Mozilla/5.0 (X11; Linux x86_64)" "Linux x86_64" 0 st.

Lemma dismiss_survives_remount_witness :
  let evs := [PBeforeInstallPrompt 1; PDismiss true] in
  sessionStorage (desktop_env (Some ∅)) <> None /\
  Forall (fun ev => ev <> PDismiss false) evs /\
  dismissed (prun (mount_prompt (desktop_env (Some ∅))) evs) = true /\
  sessionStorage (desktop_env (storage (prun (mount_prompt (desktop_env (Some ∅))) evs)))
    = storage (prun (mount_prompt (desktop_env (Some ∅))) evs) /\
  (render (prun (mount_prompt (desktop_env (storage (prun (mount_prompt (desktop_env (Some ∅))) evs))))
            [PBeforeInstallPrompt 2]) = VNull /\
   (forall e0 st id e1,
     sessionStorage e0 = Some st -> st !! dismissed_key = None ->
     prompt_standalone e0 = false -> checkIOS e0 = false ->
     sessionStorage e1 = storage (prun (mount_prompt e0) [PBeforeInstallPrompt id; PDismiss false]) ->
     prompt_standalone e1 = false -> checkIOS e1 = false ->
     dismissed (prun (mount_prompt e0) [PBeforeInstallPrompt id; PDismiss false]) = true /\
     render (prun (mount_prompt e1) [PBeforeInstallPrompt id]) = VInstallCard)).
Proof.
  intros evs.
  assert (Hf : Forall (fun ev => ev <> PDismiss false) evs).
  { repeat constructor; discriminate. }
  split; [discriminate |]. split; [exact Hf |]. split; [reflexivity |]. split; [reflexivity |].
  apply (dismiss_survives_remount (desktop_env (Some ∅)) evs
           (desktop_env (storage (prun (mount_prompt (desktop_env (Some ∅))) evs)))
           [PBeforeInstallPrompt 2]); [discriminate | exact Hf | reflexivity | reflexivity].
Defined.

Lemma no_prompt_prun s evs :
  deferredPrompt s = None ->
  Forall (fun ev => forall id, ev <> PBeforeInstallPrompt id) evs ->
  deferredPrompt (prun s evs) = None.
Proof.
  revert s; induction evs as [| ev evs IH]; intros s H Hf; simpl; [exact H |].
  inversion Hf as [| ? ? Hev Hf']; subst. apply IH; [| exact Hf'].
  destruct (enabled s ev); [| exact H].
  destruct ev as [id | | c | w]; simpl.
  - exfalso; exact (Hev id eq_refl).
  - reflexivity.
  - rewrite H. exact H.
  - exact H.
Qed.

(** Whatever the user answers in the browser's install dialog, the card is
    gone afterwards ([deferredPrompt] is cleared) and only a new
    [beforeinstallprompt] event can bring it back. A [prompt()] (or
    [userChoice]) that throws is caught and changes nothing: the state is
    the same and the card is still shown. *)
Theorem install_choice_hides_card s c evs :
  enabled s (PInstallClick c) = true ->
  Forall (fun ev => forall id, ev <> PBeforeInstallPrompt id) evs ->
  (c <> PromptThrows -> render (prun (pstep s (PInstallClick c)) evs) <> VInstallCard) /\
  (c = PromptThrows ->
     pstep s (PInstallClick c) = s /\ render (pstep s (PInstallClick c)) = VInstallCard).
Proof.
  intros Hen Hf. split.
  - intros Hc.
    assert (Hd : deferredPrompt (pstep s (PInstallClick c)) = None).
    { simpl. destruct (deferredPrompt s) eqn:E; [| exact E].
      destruct c; [reflexivity | reflexivity | contradiction]. }
    pose proof (no_prompt_prun _ evs Hd Hf) as Hn.
    unfold render. rewrite Hn.
    destruct (_ || _); [discriminate |]. destruct (isIOS _); discriminate.
  - intros ->.
    assert (Hp : pstep s (PInstallClick PromptThrows) = s).
    { simpl. destruct (deferredPrompt s); reflexivity. }
    rewrite Hp. split; [reflexivity |].
    unfold enabled in Hen. destruct (render s); congruence.
Qed.

Lemma install_choice_hides_card_witness :
  let s := pstep (mount_prompt (desktop_env (Some ∅))) (PBeforeInstallPrompt 3) in
  enabled s (PInstallClick DismissedChoice) = true /\
  Forall (fun ev => forall id, ev <> PBeforeInstallPrompt id) [PAppInstalled; PDismiss true] /\
  (DismissedChoice <> PromptThrows ->
     render (prun (pstep s (PInstallClick DismissedChoice)) [PAppInstalled; PDismiss true])
       <> VInstallCard) /\
  (DismissedChoice = PromptThrows ->
     pstep s (PInstallClick DismissedChoice) = s /\
     render (pstep s (PInstallClick DismissedChoice)) = VInstallCard).
Proof.
  intros s.
  assert (Hf : Forall (fun ev => forall id, ev <> PBeforeInstallPrompt id)
                 [PAppInstalled; PDismiss true]).
  { repeat constructor; discriminate. }
  split; [reflexivity | split; [exact Hf |]].
  apply (install_choice_hides_card s DismissedChoice [PAppInstalled; PDismiss true]);
    [reflexivity | exact Hf].
Defined.

(** The two components test "installed" differently: whatever
    [PWAInstallButton] counts as installed, [PWAInstallPrompt] does too;
    but on a page opened from an Android app (referrer
    'android-app://...') and not in standalone display mode, the prompt
    hides itself for good while the button offers "Install App" as soon
    as [beforeinstallprompt] fires. *)
Theorem button_and_prompt_disagree e id evs :
  (button_standalone e = true -> prompt_standalone e = true) /\
  (displayModeStandalone e = false -> navigatorStandalone e = false ->
   includes (referrer e) "android-app://" = true ->
   button_shown (bstep (mount_button e) (PBeforeInstallPrompt id)) = true /\
   render (prun (mount_prompt e) evs) = VNull).
Proof.
  split.
  - unfold button_standalone, prompt_standalone. intros ->. reflexivity.
  - intros H1 H2 H3. split.
    + unfold button_shown, mount_button, button_standalone; simpl. rewrite H1, H2. reflexivity.
    + apply render_hidden, hidden_prun. unfold hidden, mount_prompt, prompt_standalone; simpl.
      rewrite H3, !orb_true_r. reflexivity.
Qed.

Definition twa_env : env :=
  mkEnv false false "android-app://com.retina.app/" "Mozilla/5.0 (Linux; Android 14)"
    "Linux armv8l" 5 (Some ∅).

Lemma button_and_prompt_disagree_witness :
  displayModeStandalone twa_env = false /\ navigatorStandalone twa_env = false /\
  includes (referrer twa_env) "android-app://" = true /\
  button_shown (bstep (mount_button twa_env) (PBeforeInstallPrompt 0)) = true /\
  render (prun (mount_prompt twa_env) [PBeforeInstallPrompt 0]) = VNull.
Proof.
  split; [reflexivity | split; [reflexivity | split; [vm_compute; reflexivity |]]].
  apply (proj2 (button_and_prompt_disagree twa_env 0 [PBeforeInstallPrompt 0]));
    [reflexivity | reflexivity | vm_compute; reflexivity].
Defined.

Lemma remove_listener_absent l reg : l ∉ reg -> remove_listener l reg = reg.
Proof.
  induction reg as [| x reg IH]; intros H; simpl; [reflexivity |].
  apply not_elem_of_cons in H as [Hx Hr].
  destruct (decide (x = l)) as [-> | _]; [contradiction |]. rewrite IH; auto.
Qed.

(** [PWAStatusIndicator]'s cleanup removes [checkPWAStatus], which was
    never registered, instead of the [listener] wrapper it added: after
    [k] mount/unmount cycles on a media query that had no
    [checkPWAStatus] registered, every wrapper is still there. *)
Theorem status_indicator_leaks_listeners n k reg :
  (forall m, CheckPWAStatus m ∉ reg) ->
  indicator_cycles n k reg = reg ++ map Wrapper (seq n k).
Proof.
  revert n reg; induction k as [| k IH]; intros n reg H; simpl.
  - rewrite app_nil_r. reflexivity.
  - unfold indicator_unmount, indicator_mount.
    rewrite remove_listener_absent.
    + rewrite IH; [rewrite <- app_assoc; reflexivity |].
      intros m Hm. apply elem_of_app in Hm as [Hm | Hm]; [exact (H m Hm) |].
      apply list_elem_of_singleton in Hm. discriminate.
    + intros Hm. apply elem_of_app in Hm as [Hm | Hm]; [exact (H n Hm) |].
      apply list_elem_of_singleton in Hm. discriminate.
Qed.

Lemma status_indicator_leaks_listeners_witness :
  (forall m, CheckPWAStatus m ∉ ([] : list listener)) /\
  indicator_cycles 0 3 [] = [] ++ map Wrapper (seq 0 3).
Proof.
  assert (H : forall m, CheckPWAStatus m ∉ ([] : list listener)).
  { intros m. apply not_elem_of_nil. }
  split; [exact H | exact (status_indicator_leaks_listeners 0 3 [] H)].
Defined.

End PWAFacts.

(* ------------------------------------------------------------------ *)
(** ** Offline page: retrying the connection *)

Module OfflinePageFacts.
Import OfflinePage.

Definition rinv (s : page) : Prop :=
  (inflight s = true -> isRetrying s = true /\ timers s = 0) /\
  (timers s <> 0 -> isRetrying s = true /\ inflight s = false) /\
  timers s <= 1.

Lemma rinv_step s e s' : rinv s -> ract s e = Some s' -> rinv s'.
Proof.
  intros (H1 & H2 & H3) Hact. unfold ract in Hact.
  destruct (reloaded s); [discriminate |].
  destruct e.
  - destruct (isRetrying s) eqn:Er; [discriminate |]. injection Hact as <-.
    assert (Ht : timers s = 0).
    { destruct (timers s) eqn:Et; [reflexivity |].
      destruct H2 as [Hr _]; [discriminate | congruence]. }
    unfold rinv; simpl; rewrite Ht; repeat split; auto; try lia; congruence.
  - destruct (inflight s) eqn:Ei; [| discriminate]. injection Hact as <-.
    destruct (H1 eq_refl) as [Hr Ht].
    unfold rinv; simpl; repeat split; auto; try discriminate; lia.
  - destruct (inflight s) eqn:Ei; [| discriminate]. injection Hact as <-.
    destruct (H1 eq_refl) as [Hr Ht].
    unfold rinv; simpl; repeat split; auto; try discriminate; lia.
  - destruct (inflight s) eqn:Ei; [| discriminate]. injection Hact as <-.
    destruct (H1 eq_refl) as [Hr Ht].
    unfold rinv; simpl; repeat split; auto; try discriminate; lia.
  - destruct (timers s) as [| t] eqn:Et; [discriminate |]. injection Hact as <-.
    destruct H2 as [Hr Hi]; [discriminate |].
    unfold rinv; simpl; repeat split; intros; try congruence; lia.
Qed.

Lemma rreach_inv s : rreach s -> rinv s.
Proof.
  induction 1 as [| s e s' _ IH Hact].
  - unfold rinv; simpl; repeat split; intros; try discriminate; lia.
  - exact (rinv_step s e s' IH Hact).
Qed.

(** [handleRetryConnection] only re-enables the retry button from its
    [catch]: when the health check answers with a response that is not
    [ok], [isRetrying] stays true and no later event (click, response or
    timer) can change the page again, so the button stays disabled until
    the page is reloaded by hand. A request that throws instead re-enables
    the button when its 2s timer fires. *)
Theorem not_ok_response_disables_retry_forever s :
  rreach s ->
  (forall s', ract s RFetchNotOk = Some s' ->
     isRetrying s' = true /\ forall e, ract s' e = None) /\
  (forall s', ract s RFetchThrows = Some s' ->
     exists s'', ract s' RTimer = Some s'' /\ isRetrying s'' = false).
Proof.
  intros Hr. pose proof (rreach_inv s Hr) as (H1 & H2 & H3).
  split; intros s' Hact; unfold ract in Hact;
    destruct (reloaded s) eqn:Erl; try discriminate;
    destruct (inflight s) eqn:Ei; try discriminate; injection Hact as <-;
    destruct (H1 eq_refl) as [Hrt Ht].
  - split; [exact Hrt |]. intros e. unfold ract; simpl.
    destruct e; simpl; rewrite ?Hrt, ?Ht; reflexivity.
  - unfold ract; simpl. rewrite Ht. eexists; split; reflexivity.
Qed.

Lemma not_ok_response_disables_retry_forever_witness :
  let s := {| retryCount := 1; isRetrying := true; inflight := true; timers := 0;
              reloaded := false |} in
  rreach s /\
  ((forall s', ract s RFetchNotOk = Some s' ->
      isRetrying s' = true /\ forall e, ract s' e = None) /\
   (forall s', ract s RFetchThrows = Some s' ->
      exists s'', ract s' RTimer = Some s'' /\ isRetrying s'' = false)).
Proof.
  intros s.
  assert (Hr : rreach s) by (apply (rreach_act init RClick); [constructor | reflexivity]).
  split; [exact Hr | exact (not_ok_response_disables_retry_forever s Hr)].
Defined.

End OfflinePageFacts.

(* ------------------------------------------------------------------ *)
(** ** CNNDetectionInterface: the model's lifetime *)

Module CNNLifecycleFacts.
Import CNNLifecycle.

Lemma changes_shape k :
  Nat.iter k change_disease mount =
  {| model := Some k; captured := match k with 0 => None | S k' => Some k' end;
     created := seq 0 (S k); disposed := seq 0 (pred k); next_model := S k |}.
Proof.
  induction k as [| k IH]; [reflexivity |].
  simpl Nat.iter. rewrite IH. unfold change_disease, run_effect, cleanup; simpl.
  f_equal.
  - change (0 :: seq 1 k ++ [1 + k] = 0 :: seq 1 (S k)). rewrite <- seq_S. reflexivity.
  - destruct k as [| k]; [reflexivity |]. simpl pred.
    change (seq 0 k ++ [0 + k] = seq 0 (S k)). rewrite <- seq_S. reflexivity.
Qed.

(** The cleanup reads [model] from the render that ran the effect, that
    is, the model before the one [initializeCNN] created: after the
    interface is mounted, its [diseaseType] changed [k] times and it is
    unmounted, the models [0 .. k-1] have been disposed and the model in
    use, [k], never is. Mounted once per selection by [DetectionView]
    ([k = 0]), no model is ever disposed. *)
Theorem model_in_use_never_disposed k :
  let s := unmount (Nat.iter k change_disease mount) in
  created s = seq 0 (S k) /\ disposed s = seq 0 k /\ ~ In k (disposed s).
Proof.
  simpl. rewrite changes_shape. unfold unmount, cleanup; cbn [created disposed captured].
  assert (Hd : seq 0 (pred k) ++ match match k with 0 => None | S k' => Some k' end with
                                  | Some m => [m] | None => [] end = seq 0 k).
  { destruct k as [| k]; [reflexivity |]. simpl pred.
    change (seq 0 k ++ [0 + k] = seq 0 (S k)). rewrite <- seq_S. reflexivity. }
  rewrite Hd. split; [reflexivity | split; [reflexivity |]].
  rewrite in_seq. lia.
Qed.

End CNNLifecycleFacts.
